(** * OCSP stapling: a model of [ocspstapling.go] and [errors.go]

    The package keeps the OCSP staple of one TLS certificate fresh.  Its
    functions are modelled here:

    - [fetchOCSP]: one request/response cycle against the responder;
    - [ocspStaplingCanBeUsed]: the bounded probe run by [NewStapling];
    - [RunOCSPRenewal]: the renewal loop;
    - [Stapling_Certificate]: the read accessor ([Stapling.Certificate]).

    The code talks to an X.509 decoder, an OCSP codec, an HTTP client, a
    clock and a context.  They are gathered in a record [Env] of oracles;
    everything the code does to the outside world is written to a trace. *)

From Stdlib Require Import ZArith List String Bool Lia Sorted.
Import ListNotations.
Local Open Scope Z_scope.

(** ** Values of the Go program *)

Definition bytes := list Byte.byte.

(** [time.Time] as nanoseconds since the zero [Time]; [time.Time{}] is 0. *)
Definition Time := Z.
Definition time_zero : Time := 0.

(** [time.Duration] is an [int64] count of nanoseconds. *)
Definition Duration := Z.
Definition minDuration : Duration := - 2 ^ 63.
Definition maxDuration : Duration := 2 ^ 63 - 1.
Definition Millisecond : Duration := 1000000.
Definition Second : Duration := 1000 * Millisecond.
Definition Minute : Duration := 60 * Second.

(** [Time.Sub]: the difference, saturated to the range of [Duration]. *)
Definition time_Sub (t u : Time) : Duration :=
  if t - u <? minDuration then minDuration
  else if maxDuration <? t - u then maxDuration
  else t - u.

(** errors.go: the sentinel errors.  A Go [error] value is [option error],
    [None] being [nil]. *)
Inductive error :=
| ErrInvalidCertificate
| ErrNoOCSPServerDefined
| ErrCouldNotCreateOCSPRequest
| ErrCouldNotPostOCSPRequest
| ErrCouldNotReadOCSPResponse
| ErrCouldNotCloseBody
| ErrCouldNotParseResponse.

Definition error_eqb (a b : error) : bool :=
  match a, b with
  | ErrInvalidCertificate, ErrInvalidCertificate
  | ErrNoOCSPServerDefined, ErrNoOCSPServerDefined
  | ErrCouldNotCreateOCSPRequest, ErrCouldNotCreateOCSPRequest
  | ErrCouldNotPostOCSPRequest, ErrCouldNotPostOCSPRequest
  | ErrCouldNotReadOCSPResponse, ErrCouldNotReadOCSPResponse
  | ErrCouldNotCloseBody, ErrCouldNotCloseBody
  | ErrCouldNotParseResponse, ErrCouldNotParseResponse => true
  | _, _ => false
  end.

(** The part of [x509.Certificate] the package reads. *)
Record x509_Certificate := {
  Raw : bytes;
  OCSPServer : list string
}.

(** [ocsp.Response], reduced to the field the package reads. *)
Record ocsp_Response := {
  NextUpdate : Time
}.

(** [tls.Certificate]. *)
Record tls_Certificate := {
  Certificate : list bytes;
  PrivateKey : bytes;
  SupportedSignatureAlgorithms : list Z;
  OCSPStaple : bytes;
  SignedCertificateTimestamps : list bytes;
  Leaf : option x509_Certificate
}.

(** [http.Response], as far as the package uses it: what [io.ReadAll] on
    the body gives ([None] is a read error) and whether [Body.Close]
    fails. *)
Record http_Response := {
  Body_ReadAll : option bytes;
  Body_Close_fails : bool
}.

(** [Stapling]; the [httpClient] and the [lock] live in the world below. *)
Record Stapling := {
  certificate : tls_Certificate;
  useOCSPStapling : bool
}.

Definition retry : Z := 10.

(** ** The outside world *)

(** The collaborators.  [http_Post k] is the outcome of the [k]-th POST of
    the run ([None] is a transport error), [ctx_Done k] tells whether the
    [k]-th [select] takes the [ctx.Done()] case, and [time_Now k] is the
    [k]-th reading of the clock. *)
Record Env := {
  x509_ParseCertificate : bytes -> option x509_Certificate;
  ocsp_CreateRequest : x509_Certificate -> x509_Certificate -> option bytes;
  ocsp_ParseResponse : bytes -> x509_Certificate -> option ocsp_Response;
  http_Post : nat -> string -> string -> bytes -> option http_Response;
  ctx_Done : nat -> bool;
  time_Now : nat -> Time
}.

Inductive Event :=
| EvTimer (d : Duration)   (* a select took the timer case; the timer was armed with d *)
| EvCtxDone                (* a select took the ctx.Done() case *)
| EvPost (url contentType : string) (body : bytes)
| EvFetched (err : option error)   (* fetchOCSP returned err to its caller *)
| EvLock
| EvUnlock
| EvRLock
| EvRUnlock.

Record World := {
  trace : list Event;
  posts : nat;
  selects : nat;
  clock_reads : nat
}.

Definition world0 : World :=
  {| trace := []; posts := 0; selects := 0; clock_reads := 0 |}.

Definition emit (e : Event) (w : World) : World :=
  {| trace := trace w ++ [e]; posts := posts w;
     selects := selects w; clock_reads := clock_reads w |}.

(** The world once a POST has been issued. *)
Definition posted (url contentType : string) (body : bytes) (w : World)
  : World :=
  {| trace := trace w ++ [EvPost url contentType body];
     posts := S (posts w);
     selects := selects w; clock_reads := clock_reads w |}.

(** The world once the clock has been read. *)
Definition clock_read (w : World) : World :=
  {| trace := trace w; posts := posts w; selects := selects w;
     clock_reads := S (clock_reads w) |}.

(** ** Computations: a state monad over [World] with Go's panic *)

Inductive outcome (A : Type) :=
| Ret (a : A)
| Panic.
Arguments Ret {A} a.
Arguments Panic {A}.

Definition M (A : Type) : Type := World -> World * outcome A.

Definition ret {A} (a : A) : M A := fun w => (w, Ret a).
Definition panic {A} : M A := fun w => (w, Panic).
Definition bind {A B} (m : M A) (f : A -> M B) : M B :=
  fun w => match m w with
           | (w', Ret a) => f a w'
           | (w', Panic) => (w', Panic)
           end.
Definition log (e : Event) : M unit := fun w => (emit e w, Ret tt).

Declare Scope go_scope.
Delimit Scope go_scope with go.
Notation "x <- c1 ;; c2" := (bind c1 (fun x => c2))
  (at level 61, c1 at next level, right associativity) : go_scope.
Notation "' pat <- c1 ;; c2" :=
  (bind c1 (fun x => match x with pat => c2 end))
  (at level 61, pat pattern, c1 at next level, right associativity) : go_scope.
Notation "c1 ;; c2" := (bind c1 (fun _ => c2))
  (at level 61, right associativity) : go_scope.
Local Open Scope go_scope.

Section Package.

Variable env : Env.

(** [httpClient.Post]: consumes the next answer of the transport. *)
Definition httpClient_Post (url contentType : string) (body : bytes)
  : M (option http_Response) :=
  fun w =>
    (posted url contentType body w,
     Ret (http_Post env (posts w) url contentType body)).

(** [time.Until t] is [t.Sub(time.Now())]. *)
Definition time_Until (t : Time) : M Duration :=
  fun w => (clock_read w, Ret (time_Sub t (time_Now env (clock_reads w)))).

(** [select { case <-ctx.Done(): ... case <-timer.C: ... }] on a timer
    armed with [d]: [true] when the [ctx.Done()] case is taken. *)
Definition select_ctx_or_timer (d : Duration) : M bool :=
  fun w =>
    let done := ctx_Done env (selects w) in
    ({| trace := trace w ++ [if done then EvCtxDone else EvTimer d];
        posts := posts w; selects := S (selects w);
        clock_reads := clock_reads w |},
     Ret done).

(** Indexing a slice panics out of range. *)
Definition index {A} (l : list A) (i : nat) : M A :=
  match nth_error l i with
  | Some a => ret a
  | None => panic
  end.

(** *** fetchOCSP *)

Definition fetchOCSP (certificate : tls_Certificate)
  : M (bytes * Time * option error) :=
  (* Owner Certificate should be index 0 in chain *)
  der0 <- index (Certificate certificate) 0 ;;
  match x509_ParseCertificate env der0 with
  | None => ret ([], time_zero, Some ErrInvalidCertificate)
  | Some x509Cert =>
    if (List.length (OCSPServer x509Cert) =? 0)%nat
    then ret ([], time_zero, Some ErrNoOCSPServerDefined)
    else
      ocspServer <- index (OCSPServer x509Cert) 0 ;;
      (* The second certificate in the chain should be the issuer's *)
      if (List.length (Certificate certificate) <=? 1)%nat
      then ret ([], time_zero, Some ErrInvalidCertificate)
      else
        der1 <- index (Certificate certificate) 1 ;;
        match x509_ParseCertificate env der1 with
        | None => ret ([], time_zero, Some ErrInvalidCertificate)
        | Some x509Issuer =>
          match ocsp_CreateRequest env x509Cert x509Issuer with
          | None => ret ([], time_zero, Some ErrCouldNotCreateOCSPRequest)
          | Some ocspRequest =>
            posted <- httpClient_Post ocspServer "application/ocsp-request"
                                      ocspRequest ;;
            match posted with
            | None => ret ([], time_zero, Some ErrCouldNotPostOCSPRequest)
            | Some ocspResponse =>
              match Body_ReadAll ocspResponse with
              | None => ret ([], time_zero, Some ErrCouldNotReadOCSPResponse)
              | Some ocspResponseData =>
                if Body_Close_fails ocspResponse
                then ret (ocspResponseData, time_zero,
                          Some ErrCouldNotCloseBody)
                else
                  match ocsp_ParseResponse env ocspResponseData x509Issuer with
                  | None => ret ([], time_zero, Some ErrCouldNotParseResponse)
                  | Some response =>
                    ret (ocspResponseData, NextUpdate response, None)
                  end
              end
            end
          end
        end
  end.

(** The call sites of [fetchOCSP] record what it returned. *)
Definition call_fetchOCSP (certificate : tls_Certificate)
  : M (bytes * Time * option error) :=
  r <- fetchOCSP certificate ;;
  log (EvFetched (snd r)) ;;
  ret r.

(** *** ocspStaplingCanBeUsed *)

(** The [for i := 0; i < retry; i++] loop with [n] iterations left;
    [retryTimer] is the duration the timer is currently armed with.  With
    [i] below [retry] the product [time.Second * time.Duration(i+1)] is at
    most ten seconds, far from the bounds of [int64]. *)
Fixpoint probe_loop (certificate : tls_Certificate) (n : nat) (i : Z)
         (retryTimer : Duration) : M bool :=
  match n with
  | O => ret false
  | S n' =>
    done <- select_ctx_or_timer retryTimer ;;
    if done then ret false
    else
      '(_, _, err) <- call_fetchOCSP certificate ;;
      match err with
      | None => ret true
      | Some e =>
        if negb (error_eqb e ErrCouldNotPostOCSPRequest) then ret false
        else
          (* Increase delay between subsequent requests *)
          probe_loop certificate n' (i + 1) (Second * (i + 1))
      end
  end.

Definition ocspStaplingCanBeUsed (certificate : tls_Certificate) : M bool :=
  probe_loop certificate (Z.to_nat (retry - 0)) 0 Millisecond.

(** *** NewStapling *)

Definition NewStapling (certificate : tls_Certificate) : M Stapling :=
  usable <- ocspStaplingCanBeUsed certificate ;;
  ret {| certificate := certificate; useOCSPStapling := usable |}.

(** *** RunOCSPRenewal *)

Definition set_useOCSPStapling (s : Stapling) (b : bool) : Stapling :=
  {| certificate := certificate s; useOCSPStapling := b |}.

Definition set_OCSPStaple (s : Stapling) (resp : bytes) : Stapling :=
  {| certificate :=
       {| Certificate := Certificate (certificate s);
          PrivateKey := PrivateKey (certificate s);
          SupportedSignatureAlgorithms :=
            SupportedSignatureAlgorithms (certificate s);
          OCSPStaple := resp;
          SignedCertificateTimestamps :=
            SignedCertificateTimestamps (certificate s);
          Leaf := Leaf (certificate s) |};
     useOCSPStapling := useOCSPStapling s |}.

(** What one pass through the [for] body leaves: the loop goes on with the
    receiver, [errorCount] and the armed timer, or the function returns. *)
Inductive pass :=
| Continue (s : Stapling) (errorCount : Z) (timer : Duration)
| Return (s : Stapling).

(** The [case <-timer.C:] branch.  [errorCount] is a Go [int]; the
    increment is only reached with [errorCount <= retry], where it cannot
    overflow. *)
Definition renew (s : Stapling) (errorCount : Z) : M pass :=
  log EvLock ;;
  '(resp, renewAt, err) <- call_fetchOCSP (certificate s) ;;
  match err with
  | Some e =>
    if error_eqb e ErrCouldNotPostOCSPRequest then
      log EvUnlock ;;
      (* If the errorCount is bigger than the retry count, stop trying *)
      if errorCount >? retry then ret (Return s)
      else ret (Continue s (errorCount + 1) Minute)
    else
      let s := set_useOCSPStapling s false in
      log EvUnlock ;;
      ret (Return s)
  | None =>
    let s := set_OCSPStaple s resp in
    let errorCount := 0 in
    d <- time_Until renewAt ;;
    log EvUnlock ;;
    ret (Continue s errorCount d)
  end.

(** One iteration of [for { select { ... } }]. *)
Definition iteration (s : Stapling) (errorCount : Z) (timer : Duration)
  : M pass :=
  done <- select_ctx_or_timer timer ;;
  if done then ret (Return s) else renew s errorCount.

(** At most [n] iterations from a loop state; a [Return] is kept. *)
Fixpoint iterations (n : nat) (p : pass) : M pass :=
  match n, p with
  | O, _ => ret p
  | _, Return _ => ret p
  | S n', Continue s errorCount timer =>
    p' <- iteration s errorCount timer ;;
    iterations n' p'
  end.

(** The endless loop, cut after [fuel] iterations: [None] when the loop is
    still running then. *)
Definition renewal_loop (fuel : nat) (s : Stapling) : M (option Stapling) :=
  p <- iterations fuel (Continue s 0 Second) ;;
  match p with
  | Return s' => ret (Some s')
  | Continue _ _ _ => ret None
  end.

Definition RunOCSPRenewal (fuel : nat) (s : Stapling) : M (option Stapling) :=
  if negb (useOCSPStapling s) then ret (Some s)
  else renewal_loop fuel s.

(** *** Certificate *)

Definition Stapling_Certificate (s : Stapling)
  : M (tls_Certificate * option error) :=
  log EvRLock ;;
  let certificate := certificate s in
  log EvRUnlock ;;
  ret (certificate, None).

End Package.

Arguments Continue s errorCount%_Z timer%_Z.

(** ** Reading traces *)

Definition is_post (e : Event) : bool :=
  match e with EvPost _ _ _ => true | _ => false end.

(** The durations the timer cases of the selects waited for, in order. *)
Fixpoint timer_waits (evs : list Event) : list Duration :=
  match evs with
  | [] => []
  | EvTimer d :: evs' => d :: timer_waits evs'
  | _ :: evs' => timer_waits evs'
  end.

(** What the calls of [fetchOCSP] returned, in order. *)
Fixpoint fetches (evs : list Event) : list (option error) :=
  match evs with
  | [] => []
  | EvFetched err :: evs' => err :: fetches evs'
  | _ :: evs' => fetches evs'
  end.


(** No POST is issued while the write lock is held ([held] tells whether
    it is held at the start of the trace). *)
Fixpoint no_post_under_lock (held : bool) (evs : list Event) : bool :=
  match evs with
  | [] => true
  | EvLock :: evs' => no_post_under_lock true evs'
  | EvUnlock :: evs' => no_post_under_lock false evs'
  | EvPost _ _ _ :: evs' => negb held && no_post_under_lock held evs'
  | _ :: evs' => no_post_under_lock held evs'
  end.

Definition nonpost (e : Event) : bool := negb (is_post e).


(** The durations the probe's timer is armed with over [n] rounds that all
    fail with [ErrCouldNotPostOCSPRequest], from round [i] on with the
    timer at [d]. *)
Fixpoint backoff (n : nat) (i : Z) (d : Duration) : list Duration :=
  match n with
  | O => []
  | S n' => d :: backoff n' (i + 1) (Second * (i + 1))
  end.

(** One probe round that waited [d] and failed to reach the responder. *)
Definition failed_round (d : Duration) : list Event :=
  [EvTimer d; EvFetched (Some ErrCouldNotPostOCSPRequest)].

(** The world once a select on a timer armed with [d] has been taken. *)
Definition after_select env (d : Duration) (w : World) : World :=
  fst (select_ctx_or_timer env d w).

(** A fetch that ends before any request is sent. *)
Definition offline (r : outcome (bytes * Time * option error)) : Prop :=
  match r with
  | Panic => True
  | Ret (_, _, Some ErrInvalidCertificate)
  | Ret (_, _, Some ErrNoOCSPServerDefined)
  | Ret (_, _, Some ErrCouldNotCreateOCSPRequest) => True
  | Ret _ => False
  end.

(** The receiver a pass leaves behind. *)
Definition receiver (p : pass) : Stapling :=
  match p with
  | Continue s _ _ => s
  | Return s => s
  end.

(** Two bundles that agree on everything but the staple. *)
Definition same_but_staple (c c' : tls_Certificate) : Prop :=
  Certificate c' = Certificate c /\
  PrivateKey c' = PrivateKey c /\
  SupportedSignatureAlgorithms c' = SupportedSignatureAlgorithms c /\
  SignedCertificateTimestamps c' = SignedCertificateTimestamps c /\
  Leaf c' = Leaf c.

(** Whether the write lock is held after a trace ([held]: whether it was
    held before). *)
Fixpoint write_locked (held : bool) (evs : list Event) : bool :=
  match evs with
  | [] => held
  | EvLock :: evs' => write_locked true evs'
  | EvUnlock :: evs' => write_locked false evs'
  | _ :: evs' => write_locked held evs'
  end.


(** What [fetchOCSP] does, read branch by branch on the shape of the chain
    and on the collaborators' answers. *)
Definition fetch_plan (env : Env) (c : tls_Certificate) (w : World)
  : World * outcome (bytes * Time * option error) :=
  match Certificate c with
  | [] => (w, Panic)
  | der0 :: tail =>
    match x509_ParseCertificate env der0 with
    | None => (w, Ret ([], time_zero, Some ErrInvalidCertificate))
    | Some leaf =>
      match OCSPServer leaf with
      | [] => (w, Ret ([], time_zero, Some ErrNoOCSPServerDefined))
      | url :: _ =>
        match tail with
        | [] => (w, Ret ([], time_zero, Some ErrInvalidCertificate))
        | der1 :: _ =>
          match x509_ParseCertificate env der1 with
          | None => (w, Ret ([], time_zero, Some ErrInvalidCertificate))
          | Some issuer =>
            match ocsp_CreateRequest env leaf issuer with
            | None =>
              (w, Ret ([], time_zero, Some ErrCouldNotCreateOCSPRequest))
            | Some request =>
              let w1 := posted url "application/ocsp-request" request w in
              match http_Post env (posts w) url
                              "application/ocsp-request" request with
              | None =>
                (w1, Ret ([], time_zero, Some ErrCouldNotPostOCSPRequest))
              | Some response =>
                match Body_ReadAll response with
                | None =>
                  (w1, Ret ([], time_zero, Some ErrCouldNotReadOCSPResponse))
                | Some data =>
                  if Body_Close_fails response
                  then (w1, Ret (data, time_zero, Some ErrCouldNotCloseBody))
                  else
                    match ocsp_ParseResponse env data issuer with
                    | None =>
                      (w1, Ret ([], time_zero, Some ErrCouldNotParseResponse))
                    | Some parsed =>
                      (w1, Ret (data, NextUpdate parsed, None))
                    end
                end
              end
            end
          end
        end
      end
    end
  end.

(** The loop state of the renewal stays within these bounds: the counter
    between 0 and [retry + 1], the timer within the range of [Duration]. *)
Definition within_bounds (p : pass) : Prop :=
  match p with
  | Continue _ errorCount timer =>
    0 <= errorCount <= retry + 1 /\ minDuration <= timer <= maxDuration
  | Return _ => True
  end.

(** Whether a computation ended in a panic. *)
Definition panicked {A} (r : outcome A) : bool :=
  match r with
  | Panic => true
  | Ret _ => false
  end.



(** ** Concrete runs *)

Module Scenario.

Definition leafDER : bytes := [Byte.x01].
Definition issuerDER : bytes := [Byte.x02].
Definition bareDER : bytes := [Byte.x03].

Definition leaf : x509_Certificate :=
  {| Raw := leafDER; OCSPServer := ["http://ocsp.example"%string] |}.
Definition issuer : x509_Certificate :=
  {| Raw := issuerDER; OCSPServer := [] |}.
(** A leaf that names no responder, as a self-signed certificate does. *)
Definition bare : x509_Certificate :=
  {| Raw := bareDER; OCSPServer := [] |}.

Definition parse (der : bytes) : option x509_Certificate :=
  match der with
  | [b] =>
    if Byte.eqb b Byte.x01 then Some leaf
    else if Byte.eqb b Byte.x02 then Some issuer
    else if Byte.eqb b Byte.x03 then Some bare
    else None
  | _ => None
  end.

Definition request : bytes := [Byte.x30; Byte.x01].
Definition staple : bytes := [Byte.x30; Byte.x03].

(** The responder's staple is valid until one hour after the zero time. *)
Definition nextUpdate : Time := 3600 * Second.

Definition mkEnv (post : nat -> option http_Response) (done : nat -> bool)
           (now : Time) : Env :=
  {| x509_ParseCertificate := parse;
     ocsp_CreateRequest := fun _ _ => Some request;
     ocsp_ParseResponse := fun data _ =>
       match data with
       | [] => None
       | _ => Some {| NextUpdate := nextUpdate |}
       end;
     http_Post := fun k _ _ _ => post k;
     ctx_Done := done;
     time_Now := fun _ => now |}.

Definition good : http_Response :=
  {| Body_ReadAll := Some staple; Body_Close_fails := false |}.
Definition unclosable : http_Response :=
  {| Body_ReadAll := Some staple; Body_Close_fails := true |}.

Definition never : nat -> bool := fun _ => false.

(** The responder cannot be reached. *)
Definition down : Env := mkEnv (fun _ => None) never 0.
(** The responder answers; the run is cancelled at the second select. *)
Definition up : Env := mkEnv (fun _ => Some good) (fun k => Nat.leb 1 k) 0.
(** Every response body fails to close. *)
Definition close_fails : Env := mkEnv (fun _ => Some unclosable) never 0.
(** Eleven transport failures, then the responder answers; the run is
    cancelled at the thirteenth select. *)
Definition recovers : Env :=
  mkEnv (fun k => if Nat.ltb k 11 then None else Some good)
        (fun k => Nat.leb 12 k) 0.

Definition bundle (chain : list bytes) : tls_Certificate :=
  {| Certificate := chain; PrivateKey := [];
     SupportedSignatureAlgorithms := []; OCSPStaple := [];
     SignedCertificateTimestamps := []; Leaf := None |}.

Definition chained : tls_Certificate := bundle [leafDER; issuerDER].
Definition selfsigned : tls_Certificate := bundle [bareDER].
Definition lonely : tls_Certificate := bundle [leafDER].
Definition empty : tls_Certificate := bundle [].

Definition enabled (c : tls_Certificate) : Stapling :=
  {| certificate := c; useOCSPStapling := true |}.

(** The responder answers and nobody cancels. *)
Definition steady : Env := mkEnv (fun _ => Some good) never 0.
(** The context is done from the start. *)
Definition cancelled : Env := mkEnv (fun _ => Some good) (fun _ => true) 0.

End Scenario.

(** * Properties *)

(** ** fetchOCSP *)

(** Case analysis on the innermost scrutinee of the goal. *)
Ltac break_match :=
  match goal with
  | |- context [match ?x with _ => _ end] =>
    lazymatch x with
    | context [match _ with _ => _ end] => fail
    | _ => destruct x eqn:?
    end
  end.

Ltac run_fetch :=
  unfold fetchOCSP, bind, index, httpClient_Post, ret, panic;
  repeat (break_match; cbv beta iota; cbn [fst snd]).

Lemma error_eqb_eq (a b : error) : error_eqb a b = true <-> a = b.
Proof. destruct a, b; simpl; split; congruence. Qed.

(** A fetch either stops before the request is sent and leaves the world as
    it was, or issues exactly one POST of an OCSP request. *)
Lemma fetchOCSP_world env c w :
  (fst (fetchOCSP env c w) = w /\ offline (snd (fetchOCSP env c w))) \/
  (exists url body,
      fst (fetchOCSP env c w) = posted url "application/ocsp-request" body w /\
      ~ offline (snd (fetchOCSP env c w))).
Proof.
  run_fetch; simpl; auto; right; eauto.
Qed.


(** A fetch that fails with [ErrCouldNotPostOCSPRequest] has sent its
    request. *)
Lemma fetchOCSP_transient_posted env c w resp t :
  snd (fetchOCSP env c w) = Ret (resp, t, Some ErrCouldNotPostOCSPRequest) ->
  exists url body,
    fst (fetchOCSP env c w) = posted url "application/ocsp-request" body w.
Proof.
  intros E.
  destruct (fetchOCSP_world env c w) as [[_ O] | (url & body & E' & _)].
  - rewrite E in O. contradiction.
  - eauto.
Qed.

(** What a failure to close the body returns: the bytes that were read and
    the zero time. *)
Lemma fetchOCSP_close_failure env c w data t :
  snd (fetchOCSP env c w) = Ret (data, t, Some ErrCouldNotCloseBody) ->
  t = time_zero /\
  exists url request response,
    fst (fetchOCSP env c w) = posted url "application/ocsp-request" request w /\
    http_Post env (posts w) url "application/ocsp-request" request
      = Some response /\
    Body_ReadAll response = Some data /\
    Body_Close_fails response = true.
Proof.
  run_fetch; intros E; inversion E; subst.
  split; [reflexivity|]. eauto 8.
Qed.

(** C1, as stated, fails: a one-entry chain whose leaf parses and names no
    responder makes [fetchOCSP] return [ErrNoOCSPServerDefined], not
    [ErrInvalidCertificate]. *)
Lemma fetchOCSP_short_chain_counterexample :
  ~ (forall env c w,
        (List.length (Certificate c) < 2)%nat ->
        exists resp t,
          snd (fetchOCSP env c w) = Ret (resp, t, Some ErrInvalidCertificate) /\
          fst (fetchOCSP env c w) = w).
Proof.
  intros H.
  destruct (H Scenario.down Scenario.selfsigned world0) as (resp & t & E & _).
  - simpl. lia.
  - vm_compute in E. discriminate E.
Qed.

(** C1 (amended).  On a chain with fewer than two entries [fetchOCSP]
    issues no POST and leaves the world untouched; when the chain has its
    one entry, the call returns [ErrInvalidCertificate] if that leaf does
    not parse or names a responder, and [ErrNoOCSPServerDefined] if it
    parses and names none. *)
Theorem fetchOCSP_short_chain env c w :
  (List.length (Certificate c) < 2)%nat ->
  fst (fetchOCSP env c w) = w /\
  forall der,
    Certificate c = [der] ->
    snd (fetchOCSP env c w) =
    Ret ([], time_zero,
         Some match x509_ParseCertificate env der with
              | Some x509Cert =>
                if (List.length (OCSPServer x509Cert) =? 0)%nat
                then ErrNoOCSPServerDefined
                else ErrInvalidCertificate
              | None => ErrInvalidCertificate
              end).
Proof.
  intros Hlen. unfold fetchOCSP, bind, index, ret, panic.
  destruct (Certificate c) as [|der0 [|der1 chain]]; simpl in *.
  - split; [reflexivity|]. intros der E. discriminate E.
  - destruct (x509_ParseCertificate env der0) as [x|] eqn:P; simpl.
    + destruct (OCSPServer x) as [|url urls] eqn:O; simpl;
        (split; [reflexivity|]); intros der E; inversion E; subst;
        rewrite P, O; reflexivity.
    + split; [reflexivity|]. intros der E. inversion E; subst.
      rewrite P. reflexivity.
  - lia.
Qed.

Lemma fetchOCSP_short_chain_witness :
  (List.length (Certificate Scenario.lonely) < 2)%nat /\
  fst (fetchOCSP Scenario.down Scenario.lonely world0) = world0 /\
  forall der,
    Certificate Scenario.lonely = [der] ->
    snd (fetchOCSP Scenario.down Scenario.lonely world0) =
    Ret ([], time_zero,
         Some match x509_ParseCertificate Scenario.down der with
              | Some x509Cert =>
                if (List.length (OCSPServer x509Cert) =? 0)%nat
                then ErrNoOCSPServerDefined
                else ErrInvalidCertificate
              | None => ErrInvalidCertificate
              end).
Proof.
  assert (L : (List.length (Certificate Scenario.lonely) < 2)%nat)
    by (simpl; lia).
  split; [exact L|].
  exact (fetchOCSP_short_chain Scenario.down Scenario.lonely world0 L).
Defined.

(** ** Certificate *)

(** C8.  In every state [Certificate] returns a copy of the receiver's
    current bundle and a nil error; all it does besides is take and release
    the read lock, and it sends nothing. *)
Theorem Certificate_always_succeeds s w :
  snd (Stapling_Certificate s w) = Ret (certificate s, None) /\
  trace (fst (Stapling_Certificate s w)) = trace w ++ [EvRLock; EvRUnlock] /\
  posts (fst (Stapling_Certificate s w)) = posts w.
Proof.
  unfold Stapling_Certificate, bind, log, ret. cbn [fst snd emit trace posts].
  split; [reflexivity|]. split; [|reflexivity].
  rewrite <- app_assoc. reflexivity.
Qed.

(** ** Traces *)

Lemma timer_waits_app l1 l2 :
  timer_waits (l1 ++ l2) = timer_waits l1 ++ timer_waits l2.
Proof.
  induction l1 as [|e l1 IH]; simpl; [reflexivity|].
  destruct e; simpl; rewrite IH; reflexivity.
Qed.







(** ** ocspStaplingCanBeUsed *)

Lemma probe_loop_S env c n i d w :
  probe_loop env c (S n) i d w =
  if ctx_Done env (selects w) then (after_select env d w, Ret false)
  else
    match fetchOCSP env c (after_select env d w) with
    | (w1, Panic) => (w1, Panic)
    | (w1, Ret (resp, t, err)) =>
      let w2 := emit (EvFetched err) w1 in
      match err with
      | None => (w2, Ret true)
      | Some e =>
        if error_eqb e ErrCouldNotPostOCSPRequest
        then probe_loop env c n (i + 1) (Second * (i + 1)) w2
        else (w2, Ret false)
      end
    end.
Proof.
  cbn [probe_loop].
  unfold after_select, select_ctx_or_timer, call_fetchOCSP, bind, log, ret.
  cbn [fst].
  destruct (ctx_Done env (selects w)); [reflexivity|].
  destruct (fetchOCSP env c _) as [w1 [[[resp t] [e|]]|]]; cbn [snd];
    try reflexivity.
  destruct (error_eqb e ErrCouldNotPostOCSPRequest); reflexivity.
Qed.

Ltac assoc_eq :=
  cbn [app]; rewrite <- ?app_assoc; cbn [app]; rewrite <- ?app_assoc;
  reflexivity.



Lemma probe_loop_all_fail env c :
  (forall k, ctx_Done env k = false) ->
  (forall w0, exists resp t,
      snd (fetchOCSP env c w0)
      = Ret (resp, t, Some ErrCouldNotPostOCSPRequest)) ->
  forall n i d w,
  exists evs,
    snd (probe_loop env c n i d w) = Ret false /\
    trace (fst (probe_loop env c n i d w)) = trace w ++ evs /\
    posts (fst (probe_loop env c n i d w)) = (posts w + n)%nat /\
    timer_waits evs = backoff n i d /\
    fetches evs = repeat (Some ErrCouldNotPostOCSPRequest) n /\
    filter nonpost evs = flat_map failed_round (backoff n i d).
Proof.
  intros Hctx Hfail. induction n as [|n IH]; intros i d w.
  - exists []. simpl. rewrite app_nil_r, Nat.add_0_r. repeat split.
  - rewrite probe_loop_S, Hctx.
    unfold after_select, select_ctx_or_timer. rewrite Hctx. cbn [fst].
    set (w0 := {| trace := trace w ++ [EvTimer d]; posts := posts w;
                  selects := S (selects w);
                  clock_reads := clock_reads w |}).
    destruct (Hfail w0) as (resp & t & Ef).
    destruct (fetchOCSP_transient_posted _ _ _ _ _ Ef) as (url & body & Ew).
    destruct (fetchOCSP env c w0) as [w1 r]. cbn [fst snd] in Ef, Ew.
    subst w1 r. cbn [error_eqb].
    set (w2 := emit _ _).
    destruct (IH (i + 1) (Second * (i + 1)) w2) as (evs & R & T & P & W & F & N).
    exists ([EvTimer d; EvPost url "application/ocsp-request" body;
             EvFetched (Some ErrCouldNotPostOCSPRequest)] ++ evs).
    repeat split.
    + exact R.
    + rewrite T. unfold w2, w0. cbn [emit posted trace]. assoc_eq.
    + rewrite P. unfold w2, w0. cbn [emit posted posts]. lia.
    + cbn [app timer_waits backoff]. rewrite W. reflexivity.
    + cbn [app fetches repeat]. rewrite F. reflexivity.
    + cbn [app filter nonpost is_post negb backoff flat_map failed_round].
      rewrite N. reflexivity.
Qed.

(** C5.  If the context is not cancelled and every fetch fails with
    [ErrCouldNotPostOCSPRequest], the probe makes exactly ten attempts,
    each of them one POST, waits one millisecond before the first and then
    1, 2, ..., 9 seconds before the following ones, and returns false. *)
Theorem probe_gives_up_after_ten_failures env c w :
  (forall k, ctx_Done env k = false) ->
  (forall w0, exists resp t,
      snd (fetchOCSP env c w0)
      = Ret (resp, t, Some ErrCouldNotPostOCSPRequest)) ->
  exists evs,
    snd (ocspStaplingCanBeUsed env c w) = Ret false /\
    trace (fst (ocspStaplingCanBeUsed env c w)) = trace w ++ evs /\
    fetches evs = repeat (Some ErrCouldNotPostOCSPRequest) 10 /\
    posts (fst (ocspStaplingCanBeUsed env c w)) = (posts w + 10)%nat /\
    timer_waits evs =
      [Millisecond; 1 * Second; 2 * Second; 3 * Second; 4 * Second;
       5 * Second; 6 * Second; 7 * Second; 8 * Second; 9 * Second] /\
    StronglySorted Z.lt (timer_waits evs) /\
    filter nonpost evs = flat_map failed_round (timer_waits evs).
Proof.
  intros Hctx Hfail. unfold ocspStaplingCanBeUsed.
  destruct (probe_loop_all_fail env c Hctx Hfail
              (Z.to_nat (retry - 0)) 0 Millisecond w)
    as (evs & R & T & P & W & F & N).
  exists evs.
  change (Z.to_nat (retry - 0)) with 10%nat in *.
  rewrite W in *.
  repeat split; auto.
  repeat (constructor; [|repeat (constructor; [reflexivity|]); constructor]).
  constructor.
Qed.

Lemma probe_gives_up_after_ten_failures_witness :
  (forall k, ctx_Done Scenario.down k = false) /\
  (forall w0, exists resp t,
      snd (fetchOCSP Scenario.down Scenario.chained w0)
      = Ret (resp, t, Some ErrCouldNotPostOCSPRequest)) /\
  exists evs,
    snd (ocspStaplingCanBeUsed Scenario.down Scenario.chained world0)
    = Ret false /\
    trace (fst (ocspStaplingCanBeUsed Scenario.down Scenario.chained world0))
    = trace world0 ++ evs /\
    fetches evs = repeat (Some ErrCouldNotPostOCSPRequest) 10 /\
    posts (fst (ocspStaplingCanBeUsed Scenario.down Scenario.chained world0))
    = (posts world0 + 10)%nat /\
    timer_waits evs =
      [Millisecond; 1 * Second; 2 * Second; 3 * Second; 4 * Second;
       5 * Second; 6 * Second; 7 * Second; 8 * Second; 9 * Second] /\
    StronglySorted Z.lt (timer_waits evs) /\
    filter nonpost evs = flat_map failed_round (timer_waits evs).
Proof.
  assert (Hctx : forall k, ctx_Done Scenario.down k = false)
    by (intros k; reflexivity).
  assert (Hfail : forall w0, exists resp t,
             snd (fetchOCSP Scenario.down Scenario.chained w0)
             = Ret (resp, t, Some ErrCouldNotPostOCSPRequest))
    by (intros w0; exists [], time_zero; reflexivity).
  split; [exact Hctx|]. split; [exact Hfail|].
  exact (probe_gives_up_after_ten_failures
           Scenario.down Scenario.chained world0 Hctx Hfail).
Defined.

(** ** RunOCSPRenewal *)

Lemma renew_unfold env s errorCount w :
  renew env s errorCount w =
  match fetchOCSP env (certificate s) (emit EvLock w) with
  | (w1, Panic) => (w1, Panic)
  | (w1, Ret (resp, renewAt, None)) =>
    (emit EvUnlock (clock_read (emit (EvFetched None) w1)),
     Ret (Continue (set_OCSPStaple s resp) 0
                   (time_Sub renewAt (time_Now env (clock_reads w1)))))
  | (w1, Ret (resp, renewAt, Some e)) =>
    (emit EvUnlock (emit (EvFetched (Some e)) w1),
     Ret (if error_eqb e ErrCouldNotPostOCSPRequest
          then if errorCount >? retry then Return s
               else Continue s (errorCount + 1) Minute
          else Return (set_useOCSPStapling s false)))
  end.
Proof.
  unfold renew, call_fetchOCSP, time_Until, bind, log, ret. cbn [fst snd].
  destruct (fetchOCSP env (certificate s) (emit EvLock w))
    as [w1 [[[resp renewAt] [e|]]|]]; cbn [snd]; try reflexivity.
  destruct (error_eqb e ErrCouldNotPostOCSPRequest); [|reflexivity].
  destruct (errorCount >? retry); reflexivity.
Qed.

Lemma iteration_unfold env s errorCount timer w :
  iteration env s errorCount timer w =
  if ctx_Done env (selects w)
  then (after_select env timer w, Ret (Return s))
  else renew env s errorCount (after_select env timer w).
Proof.
  unfold iteration, after_select, select_ctx_or_timer, bind, ret. cbn [fst].
  destruct (ctx_Done env (selects w)); reflexivity.
Qed.

Lemma iterations_Return env n s w :
  iterations env n (Return s) w = (w, Ret (Return s)).
Proof. destruct n; reflexivity. Qed.

Lemma iterations_S env n s errorCount timer w :
  iterations env (S n) (Continue s errorCount timer) w =
  match iteration env s errorCount timer w with
  | (w', Ret p) => iterations env n p w'
  | (w', Panic) => (w', Panic)
  end.
Proof. reflexivity. Qed.

(** What holds of the receiver across one pass holds across any number of
    passes. *)
Lemma iterations_preserve env (R : Stapling -> Stapling -> Prop) :
  (forall s, R s s) ->
  (forall a b c, R a b -> R b c -> R a c) ->
  (forall s errorCount w p,
      snd (renew env s errorCount w) = Ret p -> R s (receiver p)) ->
  forall n p w p',
    snd (iterations env n p w) = Ret p' -> R (receiver p) (receiver p').
Proof.
  intros Rrefl Rtrans Rstep. induction n as [|n IH]; intros p w p' E.
  - simpl in E. inversion E. subst. apply Rrefl.
  - destruct p as [s errorCount timer|s].
    + rewrite iterations_S, iteration_unfold in E.
      destruct (ctx_Done env (selects w)).
      * rewrite iterations_Return in E. inversion E. subst. apply Rrefl.
      * destruct (renew env s errorCount (after_select env timer w))
          as [w' [p1|]] eqn:Er; [|discriminate E].
        apply Rtrans with (receiver p1).
        -- apply (Rstep s errorCount (after_select env timer w)).
           rewrite Er. reflexivity.
        -- apply (IH p1 w'). exact E.
    + rewrite iterations_Return in E. inversion E. subst. apply Rrefl.
Qed.

(** *** A response body that does not close *)

(** C2, as stated, fails: where every response body fails to close, the
    renewal pass of a scheduler with stapling enabled leaves it disabled,
    and the probe reports the certificate unusable. *)
Lemma close_failure_counterexample :
  ~ (forall env s errorCount w data t,
        useOCSPStapling s = true ->
        snd (fetchOCSP env (certificate s) (emit EvLock w))
        = Ret (data, t, Some ErrCouldNotCloseBody) ->
        exists p,
          snd (renew env s errorCount w) = Ret p /\
          useOCSPStapling (receiver p) = true) /\
  ~ (forall env c w data t,
        ctx_Done env (selects w) = false ->
        snd (fetchOCSP env c (after_select env Millisecond w))
        = Ret (data, t, Some ErrCouldNotCloseBody) ->
        snd (ocspStaplingCanBeUsed env c w) <> Ret false).
Proof.
  split; intros H.
  - destruct (H Scenario.close_fails (Scenario.enabled Scenario.chained)
                0 world0 Scenario.staple time_zero) as (p & E & F).
    + reflexivity.
    + reflexivity.
    + vm_compute in E. inversion E. subst p. discriminate F.
  - apply (H Scenario.close_fails Scenario.chained world0
             Scenario.staple time_zero); reflexivity.
Qed.

(** C2 (amended).  When the body was read and fails to close, [fetchOCSP]
    returns the bytes it read together with the zero time and
    [ErrCouldNotCloseBody].  Its callers treat that error as every error
    but [ErrCouldNotPostOCSPRequest]: the probe returns false at once, so
    that [NewStapling] builds a receiver with stapling disabled, and the
    renewal pass sets [useOCSPStapling] to false and returns without
    installing the bytes. *)
Theorem close_failure_is_fatal env c w data t :
  snd (fetchOCSP env c w) = Ret (data, t, Some ErrCouldNotCloseBody) ->
  (t = time_zero /\
   exists url request response,
     fst (fetchOCSP env c w)
     = posted url "application/ocsp-request" request w /\
     http_Post env (posts w) url "application/ocsp-request" request
     = Some response /\
     Body_ReadAll response = Some data /\
     Body_Close_fails response = true) /\
  (forall n i d w0,
      ctx_Done env (selects w0) = false ->
      after_select env d w0 = w ->
      probe_loop env c (S n) i d w0
      = (emit (EvFetched (Some ErrCouldNotCloseBody))
              (fst (fetchOCSP env c w)), Ret false)) /\
  (forall w0,
      ctx_Done env (selects w0) = false ->
      after_select env Millisecond w0 = w ->
      snd (NewStapling env c w0)
      = Ret {| certificate := c; useOCSPStapling := false |}) /\
  (forall s errorCount w0,
      certificate s = c ->
      emit EvLock w0 = w ->
      renew env s errorCount w0
      = (emit EvUnlock (emit (EvFetched (Some ErrCouldNotCloseBody))
                             (fst (fetchOCSP env c w))),
         Ret (Return (set_useOCSPStapling s false)))).
Proof.
  intros E.
  assert (P : forall n i d w0,
             ctx_Done env (selects w0) = false ->
             after_select env d w0 = w ->
             probe_loop env c (S n) i d w0
             = (emit (EvFetched (Some ErrCouldNotCloseBody))
                     (fst (fetchOCSP env c w)), Ret false)).
  { intros n i d w0 Hd Hw. rewrite probe_loop_S, Hd, Hw.
    destruct (fetchOCSP env c w) as [w1 r]. cbn [fst snd] in *. subst r.
    reflexivity. }
  split; [exact (fetchOCSP_close_failure env c w data t E)|].
  split; [exact P|]. split.
  - intros w0 Hd Hw. unfold NewStapling, ocspStaplingCanBeUsed, bind.
    change (Z.to_nat (retry - 0)) with 10%nat.
    rewrite (P _ _ _ _ Hd Hw). reflexivity.
  - intros s errorCount w0 Hs Hw. rewrite renew_unfold, Hs, Hw.
    destruct (fetchOCSP env c w) as [w1 r]. cbn [fst snd] in *. subst r.
    reflexivity.
Qed.

Lemma close_failure_is_fatal_witness :
  snd (fetchOCSP Scenario.close_fails Scenario.chained
                 (emit EvLock world0))
  = Ret (Scenario.staple, time_zero, Some ErrCouldNotCloseBody) /\
  renew Scenario.close_fails (Scenario.enabled Scenario.chained) 0 world0
  = (emit EvUnlock
       (emit (EvFetched (Some ErrCouldNotCloseBody))
          (fst (fetchOCSP Scenario.close_fails Scenario.chained
                          (emit EvLock world0)))),
     Ret (Return (set_useOCSPStapling
                    (Scenario.enabled Scenario.chained) false))).
Proof.
  assert (E : snd (fetchOCSP Scenario.close_fails Scenario.chained
                             (emit EvLock world0))
              = Ret (Scenario.staple, time_zero, Some ErrCouldNotCloseBody))
    by reflexivity.
  split; [exact E|].
  exact (proj2 (proj2 (proj2
           (close_failure_is_fatal Scenario.close_fails Scenario.chained
              (emit EvLock world0) Scenario.staple time_zero E)))
           (Scenario.enabled Scenario.chained) 0 world0
           eq_refl eq_refl).
Defined.

(** *** A successful pass *)






(** *** The error counter *)

Section TransportDown.

Variable env : Env.
Variable s : Stapling.
Hypothesis never_done : forall k, ctx_Done env k = false.
Hypothesis always_fails :
  forall w0, exists resp t,
    snd (fetchOCSP env (certificate s) w0)
    = Ret (resp, t, Some ErrCouldNotPostOCSPRequest).

Lemma iteration_transport_failure errorCount timer w :
  snd (iteration env s errorCount timer w)
  = Ret (if errorCount >? retry then Return s
         else Continue s (errorCount + 1) Minute) /\
  posts (fst (iteration env s errorCount timer w)) = S (posts w).
Proof.
  rewrite iteration_unfold, never_done, renew_unfold.
  set (w0 := emit EvLock (after_select env timer w)).
  destruct (always_fails w0) as (resp & t & E).
  destruct (fetchOCSP_transient_posted _ _ _ _ _ E) as (url & body & Ew).
  destruct (fetchOCSP env (certificate s) w0) as [w1 r].
  cbn [fst snd] in E, Ew. subst w1 r. cbn [error_eqb fst snd].
  split; reflexivity.
Qed.

(** While the counter stays within [retry + 1] the loop goes on. *)
Lemma failures_keep_running n :
  forall errorCount timer w,
    errorCount + Z.of_nat n <= retry + 1 ->
    snd (iterations env n (Continue s errorCount timer) w)
    = Ret (Continue s (errorCount + Z.of_nat n)
                    match n with O => timer | S _ => Minute end) /\
    posts (fst (iterations env n (Continue s errorCount timer) w))
    = (posts w + n)%nat.
Proof.
  induction n as [|n IH]; intros errorCount timer w Hle.
  - simpl. rewrite Z.add_0_r, Nat.add_0_r. split; reflexivity.
  - rewrite iterations_S.
    destruct (iteration_transport_failure errorCount timer w) as [E P].
    destruct (iteration env s errorCount timer w) as [w' r].
    cbn [fst snd] in E, P. subst r.
    destruct (Z.gtb_spec errorCount retry) as [Hgt|_]; [lia|].
    destruct (IH (errorCount + 1) Minute w') as [E' P']; [lia|].
    rewrite E', P', P. split; [|lia].
    replace (errorCount + 1 + Z.of_nat n)
      with (errorCount + Z.of_nat (S n)) by lia.
    destruct n; reflexivity.
Qed.

(** The failure that finds the counter above [retry] ends the loop. *)
Lemma failures_stop n :
  forall errorCount timer w,
    errorCount <= retry + 1 ->
    retry + 2 - errorCount <= Z.of_nat n ->
    snd (iterations env n (Continue s errorCount timer) w)
    = Ret (Return s) /\
    posts (fst (iterations env n (Continue s errorCount timer) w))
    = (posts w + Z.to_nat (retry + 2 - errorCount))%nat.
Proof.
  induction n as [|n IH]; intros errorCount timer w Hle Hn.
  - change (Z.of_nat 0) with 0 in Hn. lia.
  - rewrite iterations_S.
    destruct (iteration_transport_failure errorCount timer w) as [E P].
    destruct (iteration env s errorCount timer w) as [w' r].
    cbn [fst snd] in E, P. subst r.
    destruct (Z.gtb_spec errorCount retry) as [Hgt|Hngt].
    + rewrite iterations_Return. cbn [fst snd]. split; [reflexivity|].
      replace (retry + 2 - errorCount) with 1 by lia. simpl. lia.
    + destruct (IH (errorCount + 1) Minute w') as [E' P']; [lia|lia|].
      rewrite E', P', P. split; [reflexivity|]. lia.
Qed.

End TransportDown.

(** C3, as stated, fails: after eleven transport failures in a row the
    counter is 11, above the ceiling of 10, and the loop is still running
    with the timer armed for another minute. *)
Lemma counter_above_ceiling_counterexample :
  ~ (forall env s n w s' errorCount timer,
        snd (iterations env n (Continue s 0 Second) w)
        = Ret (Continue s' errorCount timer) ->
        errorCount <= retry).
Proof.
  intros H.
  specialize (H Scenario.recovers (Scenario.enabled Scenario.chained)
                11%nat world0 _ _ _ eq_refl).
  vm_compute in H. apply H. reflexivity.
Qed.

(** In that run the twelfth fetch succeeds: the staple is installed and the
    counter is back at zero. *)
Example recovers_after_eleven_failures :
  snd (iterations Scenario.recovers 12
         (Continue (Scenario.enabled Scenario.chained) 0 Second) world0)
  = Ret (Continue
           (set_OCSPStaple (Scenario.enabled Scenario.chained)
                           Scenario.staple)
           0 (3600 * Second)).
Proof. reflexivity. Qed.

(** C3 (amended).  A pass sets [errorCount] to zero when its fetch succeeds
    and adds one to it only when the fetch fails with
    [ErrCouldNotPostOCSPRequest] and the counter is at most [retry]; the
    comparison with [retry] comes before the increment, so the loop goes on
    with counters up to [retry + 1].  A transport failure that finds the
    counter above [retry] ends the loop with the receiver as it was:
    stapling stays enabled and the staple is the one last installed.  With
    the transport down and no cancellation that is the twelfth fetch in a
    row, and [Certificate] afterwards returns the unchanged bundle and a
    nil error. *)
Theorem errorCount_policy env s :
  (forall errorCount w w1 resp renewAt err,
      fetchOCSP env (certificate s) (emit EvLock w)
      = (w1, Ret (resp, renewAt, err)) ->
      snd (renew env s errorCount w)
      = Ret match err with
            | None =>
              Continue (set_OCSPStaple s resp) 0
                       (time_Sub renewAt (time_Now env (clock_reads w1)))
            | Some e =>
              if error_eqb e ErrCouldNotPostOCSPRequest
              then if errorCount >? retry then Return s
                   else Continue s (errorCount + 1) Minute
              else Return (set_useOCSPStapling s false)
            end) /\
  ((forall k, ctx_Done env k = false) ->
   (forall w0, exists resp t,
       snd (fetchOCSP env (certificate s) w0)
       = Ret (resp, t, Some ErrCouldNotPostOCSPRequest)) ->
   useOCSPStapling s = true ->
   forall fuel timer w,
     ((fuel <= 11)%nat ->
      snd (iterations env fuel (Continue s 0 timer) w)
      = Ret (Continue s (Z.of_nat fuel)
                      match fuel with O => timer | S _ => Minute end)) /\
     ((12 <= fuel)%nat ->
      snd (iterations env fuel (Continue s 0 timer) w) = Ret (Return s) /\
      posts (fst (iterations env fuel (Continue s 0 timer) w))
      = (posts w + 12)%nat /\
      snd (RunOCSPRenewal env fuel s w) = Ret (Some s) /\
      snd (Stapling_Certificate s (fst (RunOCSPRenewal env fuel s w)))
      = Ret (certificate s, None))).
Proof.
  split.
  - intros errorCount w w1 resp renewAt err E.
    rewrite renew_unfold, E. destruct err; reflexivity.
  - intros Hctx Hfail Hen fuel timer w. split; intros Hfuel.
    + apply (failures_keep_running env s Hctx Hfail fuel 0 timer w).
      unfold retry. lia.
    + destruct (failures_stop env s Hctx Hfail fuel 0 timer w) as [E P];
        [unfold retry; lia | unfold retry; lia |].
      split; [exact E|]. split; [exact P|]. split; [|reflexivity].
      unfold RunOCSPRenewal, renewal_loop, bind. rewrite Hen. cbn [negb].
      destruct (failures_stop env s Hctx Hfail fuel 0 Second w) as [E' _];
        [unfold retry; lia | unfold retry; lia |].
      destruct (iterations env fuel (Continue s 0 Second) w) as [w' r].
      cbn [snd] in E'. subst r. reflexivity.
Qed.

Lemma errorCount_policy_witness :
  let s := set_OCSPStaple (Scenario.enabled Scenario.chained)
                          Scenario.staple in
  snd (iterations Scenario.down 11 (Continue s 0 Second) world0)
  = Ret (Continue s 11 Minute) /\
  snd (RunOCSPRenewal Scenario.down 12 s world0) = Ret (Some s) /\
  posts (fst (iterations Scenario.down 12 (Continue s 0 Second) world0))
  = 12%nat.
Proof.
  intros s.
  assert (Hctx : forall k, ctx_Done Scenario.down k = false)
    by (intros k; reflexivity).
  assert (Hfail : forall w0, exists resp t,
             snd (fetchOCSP Scenario.down (certificate s) w0)
             = Ret (resp, t, Some ErrCouldNotPostOCSPRequest))
    by (intros w0; exists [], time_zero; reflexivity).
  pose proof (proj2 (errorCount_policy Scenario.down s)
                Hctx Hfail eq_refl) as H.
  split; [exact (proj1 (H 11%nat Second world0) (le_n 11))|].
  destruct (proj2 (H 12%nat Second world0) (le_n 12)) as (_ & P & R & _).
  split; [exact R | exact P].
Defined.

(** *** The enabled flag *)

Lemma renew_flag env s errorCount w p :
  snd (renew env s errorCount w) = Ret p ->
  useOCSPStapling (receiver p) = true -> useOCSPStapling s = true.
Proof.
  rewrite renew_unfold.
  destruct (fetchOCSP env (certificate s) (emit EvLock w))
    as [w1 [[[resp renewAt] [e|]]|]]; cbn [snd]; intros E; inversion E.
  - destruct (error_eqb e ErrCouldNotPostOCSPRequest).
    + destruct (errorCount >? retry); auto.
    + simpl. discriminate.
  - auto.
Qed.

Lemma iterations_flag env n p w p' :
  snd (iterations env n p w) = Ret p' ->
  useOCSPStapling (receiver p') = true ->
  useOCSPStapling (receiver p) = true.
Proof.
  apply (iterations_preserve env
           (fun a b => useOCSPStapling b = true -> useOCSPStapling a = true));
    auto.
  intros s errorCount w0 p0. apply renew_flag.
Qed.

(** C7.  [useOCSPStapling] is set by [NewStapling] to what the probe
    returned.  A renewal pass whose fetch fails with an error other than
    [ErrCouldNotPostOCSPRequest] sets it to false and ends the loop there,
    whatever number of passes was still allowed.  No number of passes
    leaves the flag true when it was false before, and on a receiver with
    the flag false [RunOCSPRenewal] returns at once and does nothing. *)
Theorem useOCSPStapling_only_falls env :
  (forall c w,
      snd (NewStapling env c w)
      = match snd (ocspStaplingCanBeUsed env c w) with
        | Ret usable => Ret {| certificate := c; useOCSPStapling := usable |}
        | Panic => Panic
        end) /\
  (forall n s errorCount timer w w1 resp t e,
      ctx_Done env (selects w) = false ->
      fetchOCSP env (certificate s) (emit EvLock (after_select env timer w))
      = (w1, Ret (resp, t, Some e)) ->
      e <> ErrCouldNotPostOCSPRequest ->
      iterations env (S n) (Continue s errorCount timer) w
      = (emit EvUnlock (emit (EvFetched (Some e)) w1),
         Ret (Return (set_useOCSPStapling s false)))) /\
  (forall n p w p',
      snd (iterations env n p w) = Ret p' ->
      useOCSPStapling (receiver p') = true ->
      useOCSPStapling (receiver p) = true) /\
  (forall fuel s w s',
      snd (RunOCSPRenewal env fuel s w) = Ret (Some s') ->
      useOCSPStapling s' = true -> useOCSPStapling s = true) /\
  (forall fuel s w,
      useOCSPStapling s = false ->
      RunOCSPRenewal env fuel s w = (w, Ret (Some s))).
Proof.
  split; [|split; [|split; [|split]]].
  - intros c w. unfold NewStapling, bind, ret.
    destruct (ocspStaplingCanBeUsed env c w) as [w' [b|]]; reflexivity.
  - intros n s errorCount timer w w1 resp t e Hd E Ne.
    rewrite iterations_S, iteration_unfold, Hd, renew_unfold, E.
    destruct (error_eqb e ErrCouldNotPostOCSPRequest) eqn:Ee.
    + apply error_eqb_eq in Ee. contradiction.
    + apply iterations_Return.
  - apply iterations_flag.
  - intros fuel s w s' E Hs'. unfold RunOCSPRenewal in E.
    destruct (useOCSPStapling s) eqn:Hs; [reflexivity|].
    cbn [negb] in E. inversion E. subst s'. congruence.
  - intros fuel s w Hs. unfold RunOCSPRenewal. rewrite Hs. reflexivity.
Qed.

Lemma useOCSPStapling_only_falls_witness :
  useOCSPStapling
    (set_useOCSPStapling (Scenario.enabled Scenario.chained) false) = false /\
  RunOCSPRenewal Scenario.up 5
    (set_useOCSPStapling (Scenario.enabled Scenario.chained) false) world0
  = (world0,
     Ret (Some (set_useOCSPStapling
                  (Scenario.enabled Scenario.chained) false))).
Proof.
  split; [reflexivity|].
  exact (proj2 (proj2 (proj2 (proj2
           (useOCSPStapling_only_falls Scenario.up))))
           5%nat
           (set_useOCSPStapling (Scenario.enabled Scenario.chained) false)
           world0 eq_refl).
Defined.

(** *** The write lock *)

(** C9, as stated, fails: with the responder up, the first pass of the
    renewal loop issues its POST while the write lock is held. *)
Lemma post_under_lock_counterexample :
  ~ (forall env fuel s,
        no_post_under_lock false
          (trace (fst (RunOCSPRenewal env fuel s world0))) = true).
Proof.
  intros H.
  specialize (H Scenario.up 1%nat (Scenario.enabled Scenario.chained)).
  vm_compute in H. discriminate H.
Qed.

(** C9 (amended).  A renewal pass takes the write lock before it calls
    [fetchOCSP] and releases it after the result has been handled: the
    POST of the fetch, when there is one, is issued with the lock held, and
    the unlock is the last event of the pass. *)
Theorem lock_held_across_fetch env s errorCount w :
  exists fevs,
    trace (fst (fetchOCSP env (certificate s) (emit EvLock w)))
    = trace w ++ EvLock :: fevs /\
    Forall (fun e => is_post e = true) fevs /\
    (~ offline (snd (fetchOCSP env (certificate s) (emit EvLock w))) ->
     exists url body, fevs = [EvPost url "application/ocsp-request" body]) /\
    trace (fst (renew env s errorCount w))
    = trace w ++ EvLock :: fevs ++
      match snd (fetchOCSP env (certificate s) (emit EvLock w)) with
      | Ret (_, _, err) => [EvFetched err; EvUnlock]
      | Panic => []
      end /\
    (fevs <> [] ->
     no_post_under_lock false
       (EvLock :: fevs ++
        match snd (fetchOCSP env (certificate s) (emit EvLock w)) with
        | Ret (_, _, err) => [EvFetched err; EvUnlock]
        | Panic => []
        end) = false).
Proof.
  rewrite renew_unfold.
  destruct (fetchOCSP_world env (certificate s) (emit EvLock w))
    as [[E O] | (url & body & E & O)].
  - exists []. rewrite E.
    destruct (fetchOCSP env (certificate s) (emit EvLock w))
      as [w1 [[[resp renewAt] err]|]]; cbn [fst snd] in *; subst w1;
      repeat split; auto; try contradiction; try congruence;
      try destruct err; cbn [fst emit clock_read trace]; assoc_eq.
  - exists [EvPost url "application/ocsp-request" body]. rewrite E.
    destruct (fetchOCSP env (certificate s) (emit EvLock w))
      as [w1 [[[resp renewAt] err]|]]; cbn [fst snd] in *; subst w1;
      [|simpl in O; contradiction].
    repeat split; eauto;
      try destruct err; cbn [fst emit posted clock_read trace]; assoc_eq.
Qed.

Lemma lock_held_across_fetch_witness :
  exists fevs,
    trace (fst (renew Scenario.up (Scenario.enabled Scenario.chained)
                      0 world0))
    = trace world0 ++ EvLock :: fevs ++ [EvFetched None; EvUnlock] /\
    no_post_under_lock false
      (EvLock :: fevs ++ [EvFetched None; EvUnlock]) = false.
Proof.
  destruct (lock_held_across_fetch Scenario.up
              (Scenario.enabled Scenario.chained) 0 world0)
    as (fevs & _ & _ & P & T & N).
  exists fevs. split; [exact T|].
  apply N. destruct P as (url & body & Ef); [intros O; exact O|].
  rewrite Ef. discriminate.
Defined.

(** *** What a pass may change *)

Lemma same_but_staple_refl c : same_but_staple c c.
Proof. repeat split. Qed.

Lemma same_but_staple_trans a b c :
  same_but_staple a b -> same_but_staple b c -> same_but_staple a c.
Proof.
  intros (A1 & A2 & A3 & A4 & A5) (B1 & B2 & B3 & B4 & B5).
  repeat split; congruence.
Qed.

Lemma renew_bundle env s errorCount w :
  match snd (fetchOCSP env (certificate s) (emit EvLock w)) with
  | Ret (resp, _, None) =>
    exists p, snd (renew env s errorCount w) = Ret p /\
              certificate (receiver p) = certificate (set_OCSPStaple s resp)
  | Ret (_, _, Some _) =>
    exists p, snd (renew env s errorCount w) = Ret p /\
              certificate (receiver p) = certificate s
  | Panic => snd (renew env s errorCount w) = Panic
  end.
Proof.
  rewrite renew_unfold.
  destruct (fetchOCSP env (certificate s) (emit EvLock w))
    as [w1 [[[resp renewAt] [e|]]|]]; cbn [snd]; eauto.
  eexists. split; [reflexivity|].
  destruct (error_eqb e ErrCouldNotPostOCSPRequest);
    [destruct (errorCount >? retry)|]; reflexivity.
Qed.

Lemma renew_frame env s errorCount w p :
  snd (renew env s errorCount w) = Ret p ->
  same_but_staple (certificate s) (certificate (receiver p)).
Proof.
  intros E. pose proof (renew_bundle env s errorCount w) as B.
  destruct (snd (fetchOCSP env (certificate s) (emit EvLock w)))
    as [[[resp renewAt] [e|]]|].
  - destruct B as (p0 & E0 & C). rewrite E in E0. inversion E0. subst p0.
    rewrite C. apply same_but_staple_refl.
  - destruct B as (p0 & E0 & C). rewrite E in E0. inversion E0. subst p0.
    rewrite C. repeat split.
  - congruence.
Qed.

(** C10.  [fetchOCSP] takes the bundle by value and hands back bytes, a
    time and an error only: a renewal pass whose fetch fails leaves the
    receiver's bundle exactly as it was, and one whose fetch succeeds
    changes its [OCSPStaple] alone.  Across any number of passes, and
    across [RunOCSPRenewal] as a whole, the chain, the private key, the
    signature algorithms, the certificate timestamps and the leaf are
    those of the start; [NewStapling] stores the bundle it was given. *)
Theorem renewal_frames_bundle env :
  (forall s errorCount w,
      match snd (fetchOCSP env (certificate s) (emit EvLock w)) with
      | Ret (resp, _, None) =>
        exists p,
          snd (renew env s errorCount w) = Ret p /\
          certificate (receiver p) = certificate (set_OCSPStaple s resp)
      | Ret (_, _, Some _) =>
        exists p,
          snd (renew env s errorCount w) = Ret p /\
          certificate (receiver p) = certificate s
      | Panic => snd (renew env s errorCount w) = Panic
      end) /\
  (forall n p w p',
      snd (iterations env n p w) = Ret p' ->
      same_but_staple (certificate (receiver p))
                      (certificate (receiver p'))) /\
  (forall fuel s w s',
      snd (RunOCSPRenewal env fuel s w) = Ret (Some s') ->
      same_but_staple (certificate s) (certificate s')) /\
  (forall c w s,
      snd (NewStapling env c w) = Ret s -> certificate s = c).
Proof.
  assert (I : forall n p w p',
             snd (iterations env n p w) = Ret p' ->
             same_but_staple (certificate (receiver p))
                             (certificate (receiver p'))).
  { apply (iterations_preserve env
             (fun a b => same_but_staple (certificate a) (certificate b))).
    - intros s. apply same_but_staple_refl.
    - intros a b c. apply same_but_staple_trans.
    - intros s errorCount w p. apply renew_frame. }
  split; [exact (renew_bundle env)|]. split; [exact I|]. split.
  - intros fuel s w s' E. unfold RunOCSPRenewal in E.
    destruct (useOCSPStapling s); cbn [negb] in E.
    + unfold renewal_loop, bind in E.
      destruct (iterations env fuel (Continue s 0 Second) w)
        as [w' [[s1 ec1 d1|s1]|]] eqn:Ei; cbn [snd] in E;
        try discriminate E.
      inversion E. subst s1.
      apply (I fuel (Continue s 0 Second) w (Return s')).
      rewrite Ei. reflexivity.
    + inversion E. apply same_but_staple_refl.
  - intros c w s E. unfold NewStapling, bind, ret in E.
    destruct (ocspStaplingCanBeUsed env c w) as [w' [b|]]; cbn [snd] in E;
      [|discriminate E].
    inversion E. reflexivity.
Qed.

Lemma renewal_frames_bundle_witness :
  snd (RunOCSPRenewal Scenario.up 3 (Scenario.enabled Scenario.chained)
                      world0)
  = Ret (Some (set_OCSPStaple (Scenario.enabled Scenario.chained)
                              Scenario.staple)) /\
  same_but_staple
    (certificate (Scenario.enabled Scenario.chained))
    (certificate (set_OCSPStaple (Scenario.enabled Scenario.chained)
                                 Scenario.staple)).
Proof.
  assert (E : snd (RunOCSPRenewal Scenario.up 3
                     (Scenario.enabled Scenario.chained) world0)
              = Ret (Some (set_OCSPStaple (Scenario.enabled Scenario.chained)
                                          Scenario.staple)))
    by reflexivity.
  split; [exact E|].
  exact (proj1 (proj2 (proj2 (renewal_frames_bundle Scenario.up)))
           3%nat (Scenario.enabled Scenario.chained) world0 _ E).
Defined.


(** * Further properties of the package *)

(** ** fetchOCSP, branch by branch *)

Lemma fetchOCSP_plan env c w : fetchOCSP env c w = fetch_plan env c w.
Proof.
  unfold fetchOCSP, fetch_plan, bind, index, httpClient_Post, ret, panic.
  destruct (Certificate c) as [|der0 [|der1 rest]]; cbn [nth_error];
    try reflexivity.
  - destruct (x509_ParseCertificate env der0) as [leaf|]; [|reflexivity].
    destruct (OCSPServer leaf) as [|url urls]; reflexivity.
  - destruct (x509_ParseCertificate env der0) as [leaf|]; [|reflexivity].
    destruct (OCSPServer leaf) as [|url urls]; cbn; [reflexivity|].
    destruct (x509_ParseCertificate env der1) as [issuer|]; [|reflexivity].
    destruct (ocsp_CreateRequest env leaf issuer) as [request|];
      [|reflexivity].
    destruct (http_Post env (posts w) url _ request) as [response|];
      [|reflexivity].
    destruct (Body_ReadAll response) as [data|]; [|reflexivity].
    destruct (Body_Close_fails response); [reflexivity|].
    destruct (ocsp_ParseResponse env data issuer); reflexivity.
Qed.

Ltac plan_cases :=
  rewrite ?fetchOCSP_plan; unfold fetch_plan;
  repeat (break_match; cbv beta iota zeta; cbn [fst snd]).

(** X1.  [fetchOCSP] returns a nil error exactly when the chain has a leaf
    and an issuer that both parse, the leaf names a responder, the request
    is built, the POST to the first responder is answered, the body is read
    and closed, and the response parses against the issuer; what it returns
    then is the body as read and the response's next update. *)
Theorem fetchOCSP_success_iff env c w data t :
  snd (fetchOCSP env c w) = Ret (data, t, None) <->
  exists der0 der1 rest leaf issuer url urls request response parsed,
    Certificate c = der0 :: der1 :: rest /\
    x509_ParseCertificate env der0 = Some leaf /\
    OCSPServer leaf = url :: urls /\
    x509_ParseCertificate env der1 = Some issuer /\
    ocsp_CreateRequest env leaf issuer = Some request /\
    http_Post env (posts w) url "application/ocsp-request" request
    = Some response /\
    Body_ReadAll response = Some data /\
    Body_Close_fails response = false /\
    ocsp_ParseResponse env data issuer = Some parsed /\
    t = NextUpdate parsed.
Proof.
  split.
  - plan_cases; intros E; inversion E; subst.
    repeat eexists; eauto.
  - intros (der0 & der1 & rest & leaf & issuer & url & urls & request
            & response & parsed & Hc & Hl & Hs & Hi & Hr & Hp & Hb & Hk
            & Hx & Ht).
    rewrite fetchOCSP_plan. unfold fetch_plan.
    rewrite Hc, Hl, Hs, Hi, Hr, Hp, Hb, Hk, Hx, Ht. reflexivity.
Qed.

(** X2.  [fetchOCSP] returns [ErrNoOCSPServerDefined] exactly when the
    first entry of the chain parses to a leaf without responder, whatever
    the rest of the chain is; nothing is sent then, and the bytes and the
    time returned are nil and zero. *)
Theorem fetchOCSP_no_responder_iff env c w :
  ((exists resp t,
       snd (fetchOCSP env c w)
       = Ret (resp, t, Some ErrNoOCSPServerDefined)) <->
   (exists der0 rest leaf,
       Certificate c = der0 :: rest /\
       x509_ParseCertificate env der0 = Some leaf /\
       OCSPServer leaf = [])) /\
  ((exists der0 rest leaf,
       Certificate c = der0 :: rest /\
       x509_ParseCertificate env der0 = Some leaf /\
       OCSPServer leaf = []) ->
   fetchOCSP env c w
   = (w, Ret ([], time_zero, Some ErrNoOCSPServerDefined))).
Proof.
  assert (B : (exists der0 rest leaf,
                  Certificate c = der0 :: rest /\
                  x509_ParseCertificate env der0 = Some leaf /\
                  OCSPServer leaf = []) ->
              fetchOCSP env c w
              = (w, Ret ([], time_zero, Some ErrNoOCSPServerDefined))).
  { intros (der0 & rest & leaf & Hc & Hl & Hs).
    rewrite fetchOCSP_plan. unfold fetch_plan. rewrite Hc, Hl, Hs.
    reflexivity. }
  split; [|exact B]. split.
  - intros (resp & t & E). revert E.
    plan_cases; intros E; inversion E; subst. repeat eexists; eauto.
  - intros H. rewrite (B H). do 2 eexists. reflexivity.
Qed.

(** X3.  [fetchOCSP] returns [ErrInvalidCertificate] exactly when the leaf
    does not parse, or the leaf names a responder and the chain has no
    second entry or one that does not parse; nothing is sent then. *)
Theorem fetchOCSP_invalid_certificate_iff env c w :
  ((exists resp t,
       snd (fetchOCSP env c w)
       = Ret (resp, t, Some ErrInvalidCertificate)) <->
   (exists der0 tail,
       Certificate c = der0 :: tail /\
       match x509_ParseCertificate env der0 with
       | None => True
       | Some leaf =>
         OCSPServer leaf <> [] /\
         match tail with
         | [] => True
         | der1 :: _ => x509_ParseCertificate env der1 = None
         end
       end)) /\
  ((exists resp t,
       snd (fetchOCSP env c w)
       = Ret (resp, t, Some ErrInvalidCertificate)) ->
   fetchOCSP env c w = (w, Ret ([], time_zero, Some ErrInvalidCertificate))).
Proof.
  split; [split|].
  - intros (resp & t & E). revert E.
    plan_cases; intros E; inversion E; subst;
      do 2 eexists; (split; [reflexivity|]).
    + rewrite Heqo. rewrite Heql0. split; [discriminate | exact I].
    + rewrite Heqo. rewrite Heql0. split; [discriminate | assumption].
    + rewrite Heqo. exact I.
  - intros (der0 & tail & Hc & H).
    rewrite fetchOCSP_plan. unfold fetch_plan. rewrite Hc.
    destruct (x509_ParseCertificate env der0) as [leaf|];
      [|do 2 eexists; reflexivity].
    destruct H as [Hs Ht].
    destruct (OCSPServer leaf) as [|url urls]; [congruence|].
    destruct tail as [|der1 tail]; [do 2 eexists; reflexivity|].
    rewrite Ht. do 2 eexists. reflexivity.
  - intros (resp & t & E). revert E.
    plan_cases; intros E; inversion E; subst; reflexivity.
Qed.


(** X5.  An error of [fetchOCSP] always comes with the zero time, and with
    nil bytes unless the error is [ErrCouldNotCloseBody]. *)
Theorem fetchOCSP_error_payload env c w resp t e :
  snd (fetchOCSP env c w) = Ret (resp, t, Some e) ->
  t = time_zero /\ (e <> ErrCouldNotCloseBody -> resp = []).
Proof.
  plan_cases; intros E; inversion E; subst; split; try reflexivity;
    intros Ne; congruence.
Qed.

(** X6.  [fetchOCSP] panics exactly on a bundle with an empty chain, and
    sends nothing before it does. *)
Theorem fetchOCSP_panics_iff_empty_chain env c w :
  (snd (fetchOCSP env c w) = Panic <-> Certificate c = []) /\
  (Certificate c = [] -> fetchOCSP env c w = (w, Panic)).
Proof.
  split; [split|].
  - plan_cases; intros E; try discriminate E; reflexivity.
  - intros Hc. rewrite fetchOCSP_plan. unfold fetch_plan. rewrite Hc.
    reflexivity.
  - intros Hc. rewrite fetchOCSP_plan. unfold fetch_plan. rewrite Hc.
    reflexivity.
Qed.

(** X7.  What [fetchOCSP] returns depends on the bundle through its chain
    only, and on the world through the number of POSTs made so far: the
    staple, the key and the other fields are never read. *)
Theorem fetchOCSP_reads_chain_only env c c' w w' :
  Certificate c = Certificate c' ->
  posts w = posts w' ->
  snd (fetchOCSP env c w) = snd (fetchOCSP env c' w').
Proof.
  intros Hc Hp. rewrite !fetchOCSP_plan. unfold fetch_plan.
  rewrite Hc, Hp.
  repeat (break_match; cbv beta iota zeta; cbn [fst snd]); reflexivity.
Qed.

(** ** The probe, attempt by attempt *)

Lemma fetchOCSP_success_posted env c w resp t :
  snd (fetchOCSP env c w) = Ret (resp, t, None) ->
  exists url body,
    fst (fetchOCSP env c w) = posted url "application/ocsp-request" body w.
Proof.
  intros E.
  destruct (fetchOCSP_world env c w) as [[_ O] | (url & body & E' & _)].
  - rewrite E in O. contradiction.
  - eauto.
Qed.

Lemma fetchOCSP_no_panic env c w :
  Certificate c <> [] -> exists r, snd (fetchOCSP env c w) = Ret r.
Proof.
  intros Hc. plan_cases; try congruence; eauto.
Qed.






(** X10.  On a bundle whose chain has a single entry, [NewStapling] builds
    a receiver with stapling disabled after one select and without sending
    anything, whatever that entry is and whatever the context does. *)
Theorem NewStapling_single_entry_disabled env c w der :
  Certificate c = [der] ->
  snd (NewStapling env c w)
  = Ret {| certificate := c; useOCSPStapling := false |} /\
  posts (fst (NewStapling env c w)) = posts w /\
  selects (fst (NewStapling env c w)) = S (selects w).
Proof.
  intros Hc. unfold NewStapling, ocspStaplingCanBeUsed, bind, ret.
  change (Z.to_nat (retry - 0)) with 10%nat.
  rewrite probe_loop_S.
  unfold after_select, select_ctx_or_timer. cbn [fst].
  destruct (ctx_Done env (selects w)); [repeat split|].
  rewrite fetchOCSP_plan. unfold fetch_plan. rewrite Hc.
  destruct (x509_ParseCertificate env der) as [leaf|]; [|repeat split].
  destruct (OCSPServer leaf); repeat split.
Qed.

Lemma NewStapling_single_entry_disabled_witness :
  snd (NewStapling Scenario.steady Scenario.lonely world0)
  = Ret {| certificate := Scenario.lonely; useOCSPStapling := false |} /\
  posts (fst (NewStapling Scenario.steady Scenario.lonely world0))
  = posts world0 /\
  selects (fst (NewStapling Scenario.steady Scenario.lonely world0))
  = S (selects world0).
Proof.
  exact (NewStapling_single_entry_disabled
           Scenario.steady Scenario.lonely world0 Scenario.leafDER eq_refl).
Defined.

Lemma probe_loop_no_panic env c :
  Certificate c <> [] ->
  forall n i d w, exists b, snd (probe_loop env c n i d w) = Ret b.
Proof.
  intros Hc. induction n as [|n IH]; intros i d w.
  - exists false. reflexivity.
  - rewrite probe_loop_S.
    destruct (ctx_Done env (selects w)); [exists false; reflexivity|].
    destruct (fetchOCSP_no_panic env c (after_select env d w) Hc) as (r & E).
    destruct (fetchOCSP env c (after_select env d w)) as [w1 r'].
    cbn [snd] in E. subst r'. destruct r as [[resp t] [e|]].
    + destruct (error_eqb e ErrCouldNotPostOCSPRequest).
      * apply IH.
      * exists false. reflexivity.
    + exists true. reflexivity.
Qed.

(** X11.  On a bundle with a non-empty chain [NewStapling] always returns
    a receiver; the receiver holds the bundle exactly as given, so that
    [Certificate] called next returns that bundle, with the staple it came
    with, and a nil error: what the probe fetched is not kept. *)
Theorem NewStapling_then_Certificate env c w :
  Certificate c <> [] ->
  exists usable,
    snd (NewStapling env c w)
    = Ret {| certificate := c; useOCSPStapling := usable |} /\
    snd (Stapling_Certificate
           {| certificate := c; useOCSPStapling := usable |}
           (fst (NewStapling env c w)))
    = Ret (c, None).
Proof.
  intros Hc. unfold NewStapling, ocspStaplingCanBeUsed, bind, ret.
  destruct (probe_loop_no_panic env c Hc (Z.to_nat (retry - 0)) 0
                                Millisecond w) as (b & E).
  destruct (probe_loop env c _ 0 Millisecond w) as [w' r].
  cbn [snd] in E. subst r. exists b. split; reflexivity.
Qed.

Lemma NewStapling_then_Certificate_witness :
  exists usable,
    snd (NewStapling Scenario.steady Scenario.chained world0)
    = Ret {| certificate := Scenario.chained; useOCSPStapling := usable |} /\
    snd (Stapling_Certificate
           {| certificate := Scenario.chained; useOCSPStapling := usable |}
           (fst (NewStapling Scenario.steady Scenario.chained world0)))
    = Ret (Scenario.chained, None).
Proof.
  apply (NewStapling_then_Certificate Scenario.steady Scenario.chained world0).
  discriminate.
Defined.

(** ** The renewal loop, pass by pass *)

Lemma time_Sub_range t u : minDuration <= time_Sub t u <= maxDuration.
Proof.
  unfold time_Sub.
  destruct (Z.ltb_spec (t - u) minDuration);
    [unfold minDuration, maxDuration; lia|].
  destruct (Z.ltb_spec maxDuration (t - u));
    [unfold minDuration, maxDuration; lia | lia].
Qed.

(** What holds of the loop state before a pass and is kept by every pass
    holds after any number of passes. *)
Lemma iterations_invariant env (P : pass -> Prop) :
  (forall s errorCount timer w p',
      P (Continue s errorCount timer) ->
      snd (iteration env s errorCount timer w) = Ret p' -> P p') ->
  forall n p w p',
    P p -> snd (iterations env n p w) = Ret p' -> P p'.
Proof.
  intros Hstep. induction n as [|n IH]; intros p w p' Hp E.
  - simpl in E. inversion E. subst. exact Hp.
  - destruct p as [s errorCount timer|s].
    + rewrite iterations_S in E.
      destruct (iteration env s errorCount timer w) as [w1 [p1|]] eqn:Ei;
        [|discriminate E].
      apply (IH p1 w1 p'); [|exact E].
      apply (Hstep s errorCount timer w p1 Hp). rewrite Ei. reflexivity.
    + rewrite iterations_Return in E. inversion E. subst. exact Hp.
Qed.

Lemma iteration_within_bounds env s errorCount timer w p' :
  within_bounds (Continue s errorCount timer) ->
  snd (iteration env s errorCount timer w) = Ret p' -> within_bounds p'.
Proof.
  intros [[Hlo Hhi] _]. rewrite iteration_unfold.
  destruct (ctx_Done env (selects w)).
  - intros E. inversion E. exact I.
  - rewrite renew_unfold.
    destruct (fetchOCSP env (certificate s) _)
      as [w1 [[[resp renewAt] [e|]]|]]; cbn [snd]; intros E; inversion E.
    + destruct (error_eqb e ErrCouldNotPostOCSPRequest); [|exact I].
      destruct (Z.gtb_spec errorCount retry); [exact I|].
      split; [lia|]. unfold minDuration, maxDuration, Minute, Second,
                       Millisecond. lia.
    + split; [unfold retry; lia | apply time_Sub_range].
Qed.

(** X12.  While the renewal loop runs, [errorCount] stays between 0 and
    11 and the duration the timer is armed with fits an [int64]: neither
    the counter nor the timer ever overflows. *)
Theorem renewal_counter_bounded env n s w s' errorCount timer :
  snd (iterations env n (Continue s 0 Second) w)
  = Ret (Continue s' errorCount timer) ->
  0 <= errorCount <= 11 /\ minDuration <= timer <= maxDuration.
Proof.
  intros E.
  apply (iterations_invariant env within_bounds
           (iteration_within_bounds env) n (Continue s 0 Second) w
           (Continue s' errorCount timer)); [|exact E].
  split; [unfold retry; lia|].
  unfold minDuration, maxDuration, Second, Millisecond. lia.
Qed.

Lemma renewal_counter_bounded_witness :
  0 <= 11 <= 11 /\ minDuration <= Minute <= maxDuration.
Proof.
  exact (renewal_counter_bounded Scenario.down 11
           (Scenario.enabled Scenario.chained) world0
           (Scenario.enabled Scenario.chained) 11 Minute eq_refl).
Defined.

Lemma write_locked_app l1 l2 held :
  write_locked held (l1 ++ l2) = write_locked (write_locked held l1) l2.
Proof.
  revert held. induction l1 as [|e l1 IH]; intros held; [reflexivity|].
  destruct e; simpl; apply IH.
Qed.

Lemma write_locked_posts l held :
  Forall (fun e => is_post e = true) l -> write_locked held l = held.
Proof.
  induction 1 as [|e l He _ IH]; [reflexivity|].
  destruct e; try discriminate He. exact IH.
Qed.

(** One pass: its events, what it costs, and where it leaves the lock. *)
Lemma iteration_events env s errorCount timer w :
  exists evs,
    trace (fst (iteration env s errorCount timer w)) = trace w ++ evs /\
    write_locked false evs
    = panicked (snd (iteration env s errorCount timer w)) /\
    (posts w <= posts (fst (iteration env s errorCount timer w))
     <= S (posts w))%nat /\
    selects (fst (iteration env s errorCount timer w)) = S (selects w) /\
    (clock_reads w <= clock_reads (fst (iteration env s errorCount timer w))
     <= S (clock_reads w))%nat.
Proof.
  rewrite iteration_unfold. unfold after_select, select_ctx_or_timer.
  cbn [fst]. destruct (ctx_Done env (selects w)).
  - exists [EvCtxDone]. cbn. repeat split; lia.
  - rewrite renew_unfold.
    set (w0 := emit EvLock _).
    assert (F : exists fevs,
               trace (fst (fetchOCSP env (certificate s) w0))
               = trace w ++ EvTimer timer :: EvLock :: fevs /\
               Forall (fun e => is_post e = true) fevs /\
               (posts w <= posts (fst (fetchOCSP env (certificate s) w0))
                <= S (posts w))%nat /\
               selects (fst (fetchOCSP env (certificate s) w0))
               = S (selects w) /\
               clock_reads (fst (fetchOCSP env (certificate s) w0))
               = clock_reads w).
    { destruct (fetchOCSP_world env (certificate s) w0)
        as [[E _] | (url & body & E & _)]; rewrite E.
      - exists []. unfold w0. cbn. repeat split; auto. assoc_eq.
      - exists [EvPost url "application/ocsp-request" body].
        unfold w0. cbn. repeat split; auto. assoc_eq. }
    destruct F as (fevs & Ft & Fp & Fn & Fs & Fc).
    destruct (fetchOCSP env (certificate s) w0)
      as [w1 [[[resp renewAt] err]|]]; cbn [fst snd] in *.
    + exists (EvTimer timer :: EvLock :: fevs ++ [EvFetched err; EvUnlock]).
      assert (L : write_locked false
                    (EvTimer timer :: EvLock :: fevs
                     ++ [EvFetched err; EvUnlock]) = false).
      { cbn [write_locked]. rewrite write_locked_app.
        rewrite (write_locked_posts fevs true Fp). reflexivity. }
      destruct err as [e|];
        cbn [fst snd emit clock_read trace posts selects clock_reads panicked];
        (repeat split; [rewrite Ft; assoc_eq | exact L | lia .. ]).
    + exists (EvTimer timer :: EvLock :: fevs).
      repeat split; try lia; auto.
      cbn [write_locked]. apply (write_locked_posts fevs true Fp).
Qed.

Lemma iterations_events env n :
  forall p w,
  exists evs,
    trace (fst (iterations env n p w)) = trace w ++ evs /\
    write_locked false evs = panicked (snd (iterations env n p w)) /\
    (posts (fst (iterations env n p w)) <= posts w + n)%nat /\
    (selects (fst (iterations env n p w)) <= selects w + n)%nat /\
    (clock_reads (fst (iterations env n p w)) <= clock_reads w + n)%nat.
Proof.
  induction n as [|n IH]; intros p w.
  - exists []. simpl. rewrite app_nil_r. repeat split; lia.
  - destruct p as [s errorCount timer|s].
    + rewrite iterations_S.
      destruct (iteration_events env s errorCount timer w)
        as (evs1 & T1 & L1 & P1 & S1 & C1).
      destruct (iteration env s errorCount timer w) as [w1 [p1|]];
        cbn [fst snd panicked] in *.
      * destruct (IH p1 w1) as (evs2 & T2 & L2 & P2 & S2 & C2).
        exists (evs1 ++ evs2). repeat split; try lia.
        -- rewrite T2, T1. assoc_eq.
        -- rewrite write_locked_app, L1. exact L2.
      * exists evs1. repeat split; auto; lia.
    + rewrite iterations_Return. exists []. cbn. rewrite app_nil_r.
      repeat split; lia.
Qed.

(** X13.  After any number of passes of the renewal loop the write lock is
    released, unless a fetch panicked: a panic leaves the lock held, as the
    unlock is not deferred. *)
Theorem renewal_lock_released env n p w :
  exists evs,
    trace (fst (iterations env n p w)) = trace w ++ evs /\
    write_locked false evs = panicked (snd (iterations env n p w)).
Proof.
  destruct (iterations_events env n p w) as (evs & T & L & _).
  exists evs. split; assumption.
Qed.


Lemma iterations_keep_running env s :
  (forall j, ctx_Done env j = false) ->
  (forall c w0,
      Certificate c = Certificate (certificate s) ->
      exists resp t, snd (fetchOCSP env c w0) = Ret (resp, t, None)) ->
  forall n s1 errorCount timer w,
    Certificate (certificate s1) = Certificate (certificate s) ->
    useOCSPStapling s1 = useOCSPStapling s ->
    exists s2 errorCount2 timer2,
      snd (iterations env n (Continue s1 errorCount timer) w)
      = Ret (Continue s2 errorCount2 timer2) /\
      Certificate (certificate s2) = Certificate (certificate s) /\
      useOCSPStapling s2 = useOCSPStapling s /\
      posts (fst (iterations env n (Continue s1 errorCount timer) w))
      = (posts w + n)%nat.
Proof.
  intros Hctx Hok. induction n as [|n IH]; intros s1 errorCount timer w Hc Hf.
  - exists s1, errorCount, timer. simpl. rewrite Nat.add_0_r. auto.
  - rewrite iterations_S, iteration_unfold, Hctx, renew_unfold.
    set (w0 := emit EvLock _).
    destruct (Hok (certificate s1) w0 Hc) as (resp & t & E).
    destruct (fetchOCSP_success_posted _ _ _ _ _ E) as (url & body & Ew).
    destruct (fetchOCSP env (certificate s1) w0) as [w1 r].
    cbn [fst snd] in E, Ew. subst w1 r.
    set (w2 := emit EvUnlock _).
    destruct (IH (set_OCSPStaple s1 resp) 0
                 (time_Sub t (time_Now env
                    (clock_reads (posted url "application/ocsp-request"
                                         body w0)))) w2 Hc Hf)
      as (s2 & ec2 & d2 & R & C & F & P).
    exists s2, ec2, d2. repeat split; auto.
    rewrite P. unfold w2, w0, after_select, select_ctx_or_timer. cbn. lia.
Qed.

(** X15.  With stapling enabled, no cancellation and a responder whose
    answers are all valid, [RunOCSPRenewal] does not return: after any
    number of passes the loop is still running, and it has fetched once in
    each. *)
Theorem renewal_runs_while_fetches_succeed env s :
  (forall j, ctx_Done env j = false) ->
  (forall c w0,
      Certificate c = Certificate (certificate s) ->
      exists resp t, snd (fetchOCSP env c w0) = Ret (resp, t, None)) ->
  useOCSPStapling s = true ->
  forall fuel w,
    snd (RunOCSPRenewal env fuel s w) = Ret None /\
    posts (fst (RunOCSPRenewal env fuel s w)) = (posts w + fuel)%nat.
Proof.
  intros Hctx Hok Hen fuel w.
  unfold RunOCSPRenewal, renewal_loop, bind, ret. rewrite Hen. cbn [negb].
  destruct (iterations_keep_running env s Hctx Hok fuel s 0 Second w
              eq_refl eq_refl) as (s2 & ec2 & d2 & R & _ & _ & P).
  destruct (iterations env fuel (Continue s 0 Second) w) as [w' r].
  cbn [fst snd] in *. subst r. split; [reflexivity | exact P].
Qed.

Lemma renewal_runs_while_fetches_succeed_witness :
  snd (RunOCSPRenewal Scenario.steady 7
         (Scenario.enabled Scenario.chained) world0) = Ret None /\
  posts (fst (RunOCSPRenewal Scenario.steady 7
                (Scenario.enabled Scenario.chained) world0))
  = (posts world0 + 7)%nat.
Proof.
  apply (renewal_runs_while_fetches_succeed Scenario.steady
           (Scenario.enabled Scenario.chained)).
  - intros j. reflexivity.
  - intros c w0 Hc. exists Scenario.staple, Scenario.nextUpdate.
    rewrite fetchOCSP_plan. unfold fetch_plan. rewrite Hc. reflexivity.
  - reflexivity.
Defined.

(** X16.  A pass changes the staple only to the body of the response to
    its own POST, and only when that body was read and closed without
    error and parsed as an OCSP response. *)
Theorem renew_installs_response_body env s errorCount w p :
  snd (renew env s errorCount w) = Ret p ->
  OCSPStaple (certificate (receiver p)) <> OCSPStaple (certificate s) ->
  exists url request response issuer parsed,
    http_Post env (posts w) url "application/ocsp-request" request
    = Some response /\
    Body_ReadAll response = Some (OCSPStaple (certificate (receiver p))) /\
    Body_Close_fails response = false /\
    ocsp_ParseResponse env (OCSPStaple (certificate (receiver p))) issuer
    = Some parsed.
Proof.
  rewrite renew_unfold, fetchOCSP_plan. unfold fetch_plan.
  repeat (break_match; cbv beta iota zeta; cbn [fst snd]);
    intros E Hne; inversion E; subst; cbn in Hne; try congruence.
  cbn [receiver set_OCSPStaple certificate OCSPStaple posts emit] in *.
  repeat eexists; eauto.
Qed.

Lemma renew_installs_response_body_witness :
  exists url request response issuer parsed,
    http_Post Scenario.steady (posts world0) url
              "application/ocsp-request" request
    = Some response /\
    Body_ReadAll response = Some Scenario.staple /\
    Body_Close_fails response = false /\
    ocsp_ParseResponse Scenario.steady Scenario.staple issuer = Some parsed.
Proof.
  apply (renew_installs_response_body Scenario.steady
           (Scenario.enabled Scenario.chained) 0 world0
           (Continue (set_OCSPStaple (Scenario.enabled Scenario.chained)
                                     Scenario.staple)
                     0 (3600 * Second))).
  - reflexivity.
  - discriminate.
Defined.

Lemma probe_loop_empty_chain env c :
  Certificate c = [] ->
  forall n i d w, snd (probe_loop env c n i d w) <> Ret true.
Proof.
  intros Hc. destruct n as [|n]; intros i d w; [discriminate|].
  rewrite probe_loop_S.
  destruct (ctx_Done env (selects w)); [discriminate|].
  rewrite fetchOCSP_plan. unfold fetch_plan. rewrite Hc. discriminate.
Qed.

Lemma iterations_no_panic env n :
  forall p w,
    Certificate (certificate (receiver p)) <> [] ->
    panicked (snd (iterations env n p w)) = false.
Proof.
  induction n as [|n IH]; intros p w Hc; [reflexivity|].
  destruct p as [s errorCount timer|s];
    [|rewrite iterations_Return; reflexivity].
  rewrite iterations_S, iteration_unfold.
  destruct (ctx_Done env (selects w)).
  - rewrite iterations_Return. reflexivity.
  - pose proof (renew_frame env s errorCount (after_select env timer w)) as F.
    rewrite renew_unfold in *.
    destruct (fetchOCSP_no_panic env (certificate s)
                (emit EvLock (after_select env timer w)) Hc) as (r & E).
    destruct (fetchOCSP env (certificate s) _) as [w1 r'].
    cbn [snd] in E. subst r'. destruct r as [[resp t] [e|]].
    + apply IH. specialize (F _ eq_refl). destruct F as [F _].
      cbn [snd] in *. rewrite F. exact Hc.
    + apply IH. specialize (F _ eq_refl). destruct F as [F _].
      cbn [snd] in *. rewrite F. exact Hc.
Qed.

(** X17.  [RunOCSPRenewal] never panics on a receiver that [NewStapling]
    returned, in whatever environment it then runs: stapling is enabled
    only after a fetch succeeded, which needs a chain on which no later
    fetch can panic. *)
Theorem renewal_after_NewStapling_never_panics env c w s env' fuel w' :
  snd (NewStapling env c w) = Ret s ->
  panicked (snd (RunOCSPRenewal env' fuel s w')) = false.
Proof.
  intros E. unfold NewStapling, ocspStaplingCanBeUsed, bind, ret in E.
  pose proof (fun H => probe_loop_empty_chain env c H
                         (Z.to_nat (retry - 0)) 0 Millisecond w) as Hp.
  destruct (probe_loop env c _ 0 Millisecond w) as [w1 [b|]];
    cbn [snd] in *; [|discriminate E].
  inversion E. subst s. clear E.
  unfold RunOCSPRenewal, renewal_loop, bind, ret. cbn [useOCSPStapling].
  destruct b; [|reflexivity]. cbn [negb].
  assert (Hc : Certificate c <> []) by (intros H; apply (Hp H); reflexivity).
  pose proof (iterations_no_panic env' fuel
                (Continue {| certificate := c; useOCSPStapling := true |}
                          0 Second) w' Hc) as N.
  destruct (iterations env' fuel _ w') as [w2 [[s2 ec2 d2|s2]|]];
    cbn [snd panicked] in *; congruence.
Qed.

Lemma renewal_after_NewStapling_never_panics_witness :
  panicked (snd (RunOCSPRenewal Scenario.down 20
                   {| certificate := Scenario.chained;
                      useOCSPStapling := true |} world0)) = false.
Proof.
  exact (renewal_after_NewStapling_never_panics
           Scenario.steady Scenario.chained world0
           {| certificate := Scenario.chained; useOCSPStapling := true |}
           Scenario.down 20 world0 eq_refl).
Defined.

(** ** Where the requests go *)









(** ** Instances *)

Lemma fetchOCSP_success_iff_witness :
  snd (fetchOCSP Scenario.steady Scenario.chained world0)
  = Ret (Scenario.staple, Scenario.nextUpdate, None).
Proof.
  apply (proj2 (fetchOCSP_success_iff Scenario.steady Scenario.chained
                  world0 Scenario.staple Scenario.nextUpdate)).
  exists Scenario.leafDER, Scenario.issuerDER, [], Scenario.leaf,
    Scenario.issuer, "http://ocsp.example"%string, [], Scenario.request,
    Scenario.good, {| NextUpdate := Scenario.nextUpdate |}.
  repeat split.
Defined.

Lemma fetchOCSP_no_responder_iff_witness :
  fetchOCSP Scenario.steady Scenario.selfsigned world0
  = (world0, Ret ([], time_zero, Some ErrNoOCSPServerDefined)).
Proof.
  apply (proj2 (fetchOCSP_no_responder_iff
                  Scenario.steady Scenario.selfsigned world0)).
  exists Scenario.bareDER, [], Scenario.bare. repeat split.
Defined.

Lemma fetchOCSP_invalid_certificate_iff_witness :
  fetchOCSP Scenario.steady Scenario.lonely world0
  = (world0, Ret ([], time_zero, Some ErrInvalidCertificate)).
Proof.
  apply (proj2 (fetchOCSP_invalid_certificate_iff
                  Scenario.steady Scenario.lonely world0)).
  exists [], time_zero. reflexivity.
Defined.

Lemma fetchOCSP_error_payload_witness :
  time_zero = time_zero /\
  (ErrCouldNotPostOCSPRequest <> ErrCouldNotCloseBody -> @nil Byte.byte = []).
Proof.
  exact (fetchOCSP_error_payload Scenario.down Scenario.chained world0
           [] time_zero ErrCouldNotPostOCSPRequest eq_refl).
Defined.

Lemma fetchOCSP_panics_iff_empty_chain_witness :
  fetchOCSP Scenario.steady Scenario.empty world0 = (world0, Panic).
Proof.
  exact (proj2 (fetchOCSP_panics_iff_empty_chain
                  Scenario.steady Scenario.empty world0) eq_refl).
Defined.

Lemma fetchOCSP_reads_chain_only_witness :
  snd (fetchOCSP Scenario.steady Scenario.chained world0)
  = snd (fetchOCSP Scenario.steady
           (certificate (set_OCSPStaple (Scenario.enabled Scenario.chained)
                                        Scenario.staple))
           (emit EvLock world0)).
Proof.
  exact (fetchOCSP_reads_chain_only Scenario.steady Scenario.chained
           (certificate (set_OCSPStaple (Scenario.enabled Scenario.chained)
                                        Scenario.staple))
           world0 (emit EvLock world0) eq_refl eq_refl).
Defined.
